(** * Collision and movement resolution of [model_loading.cpp]

    A shallow embedding of the collision helpers ([toWorldAABB_NonRotated],
    [aabbOverlap], [rotateY], [carWorldAABBAt], [wouldCollideAt]) and of the
    per-frame resolver [processInput], over IEEE-754 binary32 numbers.

    The C++ [float] is modelled by [spec_float] of the standard library at
    precision 24 and maximal exponent 128, so every definition computes.
    The global variables [model_trans_loc], [rotation] and
    [moment_before_collision] form the record [Globals]; the vector
    [gBuildings], which is filled once in [main] and only read afterwards, and
    the per-frame inputs (the key states reported by [glfwGetKey] and
    [deltaTime]) are arguments.  The math-library functions [sinf] and [cosf]
    are the two fields of the class [Libm]; every general property holds for
    whatever functions fill it. *)

From Stdlib Require Import ZArith List Bool Lia Permutation.
From Stdlib Require Import SpecFloat.
Import ListNotations.

Set Implicit Arguments.
Local Open Scope Z_scope.

(** ** Binary32 arithmetic *)

Module F32.

Definition prec : Z := 24.
Definition emax : Z := 128.

Definition float : Type := spec_float.

Definition add : float -> float -> float := SFadd prec emax.
Definition sub : float -> float -> float := SFsub prec emax.
Definition mul : float -> float -> float := SFmul prec emax.
Definition opp : float -> float := SFopp.

(** The comparison operators of C++ on [float]; each is false as soon as
    one operand is a NaN, except [!=], which is then true. *)
Definition ltb (x y : float) : bool := SFltb x y.
Definition gtb (x y : float) : bool :=
  match SFcompare x y with Some Gt => true | _ => false end.
Definition leb (x y : float) : bool := SFleb x y.
Definition eqb (x y : float) : bool := SFeqb x y.
Definition neb (x y : float) : bool := negb (SFeqb x y).

(** The binary32 number nearest to the fraction [n / d]: the value of a
    decimal literal such as [0.04f], read as [lit 4 100]. *)
Definition lit (n d : positive) : float :=
  SFdiv prec emax (S754_finite false n 0) (S754_finite false d 0).

Definition zero : float := S754_zero false.
Definition one : float := Eval vm_compute in lit 1 1.
Definition two : float := Eval vm_compute in lit 2 1.

(** [glm::pi<float>()]: the binary32 number nearest to pi, 0x40490FDB. *)
Definition pi : float := S754_finite false 13176795 (-22).

(** [static_cast<float>] of a [double]: a finite binary64 number is rounded
    to the nearest binary32 number (to infinity beyond the range); zeros,
    infinities and NaN are kept. *)
Definition of_double (d : spec_float) : float :=
  match d with
  | S754_finite s m e => binary_round prec emax s m e
  | _ => d
  end.

(** Neither a NaN nor an infinity. *)
Definition is_finite (x : float) : bool :=
  match x with
  | S754_zero _ | S754_finite _ _ _ => true
  | _ => false
  end.

(** [glm::min] and [glm::max] on scalars, as GLM defines them. *)
Definition min (x y : float) : float := if ltb y x then y else x.
Definition max (x y : float) : float := if ltb x y then y else x.

(** *** The order behind the comparisons

    [SFcompare] orders the numbers that are not NaN by sign, then exponent,
    then mantissa.  [rank] makes that explicit as a triple of integers
    compared lexicographically. *)

Definition rank (x : float) : option (Z * Z * Z) :=
  match x with
  | S754_nan => None
  | S754_infinity true => Some (-2, 0, 0)
  | S754_infinity false => Some (2, 0, 0)
  | S754_zero _ => Some (0, 0, 0)
  | S754_finite true m e => Some (-1, - e, Zneg m)
  | S754_finite false m e => Some (1, e, Zpos m)
  end.

Definition lex (p q : Z * Z * Z) : comparison :=
  let '(a1, b1, c1) := p in
  let '(a2, b2, c2) := q in
  match a1 ?= a2 with
  | Eq => match b1 ?= b2 with Eq => c1 ?= c2 | r => r end
  | r => r
  end.

End F32.

Abbreviation float := F32.float.

(** ** The part of GLM the collision code uses *)

Module glm.

Record vec3 : Type := Vec3 { x : float; y : float; z : float }.

(** Component-wise [operator*], [operator+], [glm::min] and [glm::max]. *)
Definition mul (a b : vec3) : vec3 :=
  Vec3 (F32.mul (x a) (x b)) (F32.mul (y a) (y b)) (F32.mul (z a) (z b)).
Definition add (a b : vec3) : vec3 :=
  Vec3 (F32.add (x a) (x b)) (F32.add (y a) (y b)) (F32.add (z a) (z b)).
Definition min (a b : vec3) : vec3 :=
  Vec3 (F32.min (x a) (x b)) (F32.min (y a) (y b)) (F32.min (z a) (z b)).
Definition max (a b : vec3) : vec3 :=
  Vec3 (F32.max (x a) (x b)) (F32.max (y a) (y b)) (F32.max (z a) (z b)).

(** [glm::radians]: degrees times the binary32 number nearest to pi/180. *)
Definition radians (degrees : float) : float :=
  F32.mul degrees
    (F32.lit 1745329251994329576923690768489
             100000000000000000000000000000000).

End glm.

Abbreviation vec3 := glm.vec3.

(** The math library, as far as the program calls it. *)
Class Libm : Type := { sinf : float -> float; cosf : float -> float }.

(** ** Tunables

    [CAR_SPEED_R] is defined by the source and used nowhere in it. *)

Definition CAR_SPEED : float := F32.lit 35 10.
Definition CAR_SPEED_R : float := F32.lit 25 10.
Definition CAR_SPEED_BOOST_FACTOR : float := F32.lit 30 10.
Definition ROTATION_SPEED : float := F32.lit 1 100.

(** ** Collision types and helpers *)

Record AABB : Type := { minLocal : vec3; maxLocal : vec3 }.

(** [buildingModel] is a pointer to the mesh; only its identity matters. *)
Record BUILDING_T : Type := {
  buildingModel : positive;
  buildingPos : vec3;
  buildingScaleFactor : vec3;
  buildingRotation : float
}.

Definition kCarLocalAABB : AABB :=
  {| minLocal := glm.Vec3 (F32.opp (F32.lit 9 10)) F32.zero
                          (F32.opp (F32.lit 19 10));
     maxLocal := glm.Vec3 (F32.lit 9 10) (F32.lit 15 10) (F32.lit 19 10) |}.

Definition kBuildingLocalAABB : AABB :=
  {| minLocal := glm.Vec3 (F32.opp (F32.lit 10 1)) F32.zero
                          (F32.opp (F32.lit 8 1));
     maxLocal := glm.Vec3 (F32.lit 10 1) (F32.lit 10 1) (F32.lit 8 1) |}.

(** The min (resp. max) of eight corners, nested as the source nests it. *)
Definition min8 (c0 c1 c2 c3 c4 c5 c6 c7 : vec3) : vec3 :=
  glm.min (glm.min (glm.min c0 c1) (glm.min c2 c3))
          (glm.min (glm.min c4 c5) (glm.min c6 c7)).
Definition max8 (c0 c1 c2 c3 c4 c5 c6 c7 : vec3) : vec3 :=
  glm.max (glm.max (glm.max c0 c1) (glm.max c2 c3))
          (glm.max (glm.max c4 c5) (glm.max c6 c7)).

(** World-space box of a local box under a position and a non-uniform scale.
    The out-parameter [outWorld] is the result. *)
Definition toWorldAABB_NonRotated (localBox : AABB) (pos scale : vec3) : AABB :=
  let mn := minLocal localBox in
  let mx := maxLocal localBox in
  let c0 := glm.mul mn scale in
  let c1 := glm.mul (glm.Vec3 (glm.x mn) (glm.y mn) (glm.z mx)) scale in
  let c2 := glm.mul (glm.Vec3 (glm.x mn) (glm.y mx) (glm.z mn)) scale in
  let c3 := glm.mul (glm.Vec3 (glm.x mn) (glm.y mx) (glm.z mx)) scale in
  let c4 := glm.mul (glm.Vec3 (glm.x mx) (glm.y mn) (glm.z mn)) scale in
  let c5 := glm.mul (glm.Vec3 (glm.x mx) (glm.y mn) (glm.z mx)) scale in
  let c6 := glm.mul (glm.Vec3 (glm.x mx) (glm.y mx) (glm.z mn)) scale in
  let c7 := glm.mul mx scale in
  {| minLocal := glm.add (min8 c0 c1 c2 c3 c4 c5 c6 c7) pos;
     maxLocal := glm.add (max8 c0 c1 c2 c3 c4 c5 c6 c7) pos |}.

(** Overlap test for two world boxes: one early [return false] per axis. *)
Definition aabbOverlap (a b : AABB) : bool :=
  if F32.ltb (glm.x (maxLocal a)) (glm.x (minLocal b))
     || F32.gtb (glm.x (minLocal a)) (glm.x (maxLocal b)) then false
  else if F32.ltb (glm.y (maxLocal a)) (glm.y (minLocal b))
          || F32.gtb (glm.y (minLocal a)) (glm.y (maxLocal b)) then false
  else if F32.ltb (glm.z (maxLocal a)) (glm.z (minLocal b))
          || F32.gtb (glm.z (minLocal a)) (glm.z (maxLocal b)) then false
  else true.

Section Collision.

Context {libm : Libm}.

(** Rotate a point around the vertical axis. *)
Definition rotateY (p : vec3) (yaw : float) : vec3 :=
  let c := cosf yaw in
  let s := sinf yaw in
  glm.Vec3 (F32.add (F32.mul c (glm.x p)) (F32.mul s (glm.z p)))
           (glm.y p)
           (F32.add (F32.mul (F32.opp s) (glm.x p)) (F32.mul c (glm.z p))).

(** The car's world box at a position and a yaw: the eight local corners
    rotated, translated, and bounded. *)
Definition carWorldAABBAt (carPos : vec3) (carYaw : float) : AABB :=
  let mn := minLocal kCarLocalAABB in
  let mx := maxLocal kCarLocalAABB in
  let r0 := glm.add (rotateY (glm.Vec3 (glm.x mn) (glm.y mn) (glm.z mn)) carYaw) carPos in
  let r1 := glm.add (rotateY (glm.Vec3 (glm.x mn) (glm.y mn) (glm.z mx)) carYaw) carPos in
  let r2 := glm.add (rotateY (glm.Vec3 (glm.x mn) (glm.y mx) (glm.z mn)) carYaw) carPos in
  let r3 := glm.add (rotateY (glm.Vec3 (glm.x mn) (glm.y mx) (glm.z mx)) carYaw) carPos in
  let r4 := glm.add (rotateY (glm.Vec3 (glm.x mx) (glm.y mn) (glm.z mn)) carYaw) carPos in
  let r5 := glm.add (rotateY (glm.Vec3 (glm.x mx) (glm.y mn) (glm.z mx)) carYaw) carPos in
  let r6 := glm.add (rotateY (glm.Vec3 (glm.x mx) (glm.y mx) (glm.z mn)) carYaw) carPos in
  let r7 := glm.add (rotateY (glm.Vec3 (glm.x mx) (glm.y mx) (glm.z mx)) carYaw) carPos in
  {| minLocal := min8 r0 r1 r2 r3 r4 r5 r6 r7;
     maxLocal := max8 r0 r1 r2 r3 r4 r5 r6 r7 |}.

(** The loop of [wouldCollideAt] over the buildings, with its early
    [return true]. *)
Fixpoint overlapsAny (carW : AABB) (buildings : list BUILDING_T) : bool :=
  match buildings with
  | [] => false
  | b :: rest =>
      let bW := toWorldAABB_NonRotated kBuildingLocalAABB
                  (buildingPos b) (buildingScaleFactor b) in
      if aabbOverlap carW bW then true else overlapsAny carW rest
  end.

(** Does the car at [proposedCarPos] with yaw [proposedYaw] overlap the
    box of any building? *)
Definition wouldCollideAt (gBuildings : list BUILDING_T)
    (proposedCarPos : vec3) (proposedYaw : float) : bool :=
  overlapsAny (carWorldAABBAt proposedCarPos proposedYaw) gBuildings.

End Collision.

(** ** Program state and per-frame input *)

(** The globals the resolver reads and writes: the car transform, the last
    safe position, and the close flag of the window. *)
Record Globals : Type := {
  model_trans_loc : vec3;
  rotation : float;
  moment_before_collision : vec3;
  windowShouldClose : bool
}.

(** The keys [processInput] polls. *)
Inductive Key : Type :=
| GLFW_KEY_LEFT_SHIFT
| GLFW_KEY_S
| GLFW_KEY_ESCAPE
| GLFW_KEY_A
| GLFW_KEY_D
| GLFW_KEY_W.

(** The window as an input source: [pressed window k] stands for
    [glfwGetKey(window, k) == GLFW_PRESS]. *)
Definition GLFWwindow : Type := Key -> bool.
Definition pressed (window : GLFWwindow) (k : Key) : bool := window k.

(** ** The resolver, block by block *)

(** Lines 453-456: the speed of this frame. *)
Definition effectiveSpeed (window : GLFWwindow) : float :=
  let speed := CAR_SPEED in
  if pressed window GLFW_KEY_LEFT_SHIFT && negb (pressed window GLFW_KEY_S)
  then F32.mul speed CAR_SPEED_BOOST_FACTOR
  else speed.

(** Lines 458-459. *)
Definition escapeStep (window : GLFWwindow) (g : Globals) : Globals :=
  if pressed window GLFW_KEY_ESCAPE then
    {| model_trans_loc := model_trans_loc g;
       rotation := rotation g;
       moment_before_collision := moment_before_collision g;
       windowShouldClose := true |}
  else g.

(** The lambda [wrapPi]: two independent single-step corrections. *)
Definition wrapPi (a : float) : float :=
  let a := if F32.gtb a F32.pi then F32.sub a (F32.mul F32.two F32.pi) else a in
  let a := if F32.ltb a (F32.opp F32.pi)
           then F32.add a (F32.mul F32.two F32.pi) else a in
  a.

(** Lines 462-480: the proposed yaw and the flag [rotated]. *)
Definition proposeYaw (window : GLFWwindow) (rotation0 : float) : float :=
  let proposedYaw := rotation0 in
  let proposedYaw :=
    if pressed window GLFW_KEY_A then F32.add proposedYaw ROTATION_SPEED
    else proposedYaw in
  let proposedYaw :=
    if pressed window GLFW_KEY_D then F32.sub proposedYaw ROTATION_SPEED
    else proposedYaw in
  wrapPi proposedYaw.

Definition rotated (window : GLFWwindow) : bool :=
  pressed window GLFW_KEY_A || pressed window GLFW_KEY_D.

(** Lines 492-494: the forward intent. *)
Definition forwardIntent (window : GLFWwindow) : float :=
  let fwd := F32.zero in
  let fwd := if pressed window GLFW_KEY_W then F32.add fwd F32.one else fwd in
  let fwd := if pressed window GLFW_KEY_S then F32.sub fwd F32.one else fwd in
  fwd.

Section Resolver.

Context {libm : Libm}.
Variable gBuildings : list BUILDING_T.

(** Lines 482-488: the rotation is committed only if it is free at the
    current position. *)
Definition rotationStep (window : GLFWwindow) (g : Globals) : Globals :=
  let proposedYaw := proposeYaw window (rotation g) in
  if rotated window then
    if negb (wouldCollideAt gBuildings (model_trans_loc g) proposedYaw) then
      {| model_trans_loc := model_trans_loc g;
         rotation := proposedYaw;
         moment_before_collision := moment_before_collision g;
         windowShouldClose := windowShouldClose g |}
    else g
  else g.

(** Lines 491-500: the proposed position.  [sin] and [cos] are applied to a
    [float] and are read as the binary32 overloads, so the products and sums
    are binary32 operations. *)
Definition proposePos (window : GLFWwindow) (deltaTime : float) (g : Globals)
  : vec3 :=
  let proposedPos := model_trans_loc g in
  let fwd := forwardIntent window in
  if F32.neb fwd F32.zero then
    let step := F32.mul (F32.mul fwd (effectiveSpeed window)) deltaTime in
    let pz := F32.add (glm.z proposedPos) (F32.mul step (cosf (rotation g))) in
    let px := F32.add (glm.x proposedPos) (F32.mul step (sinf (rotation g))) in
    glm.Vec3 px (glm.y proposedPos) pz
  else proposedPos.

(** Lines 507-508: the two slide candidates. *)
Definition slideX (g : Globals) (proposedPos : vec3) : vec3 :=
  glm.Vec3 (glm.x proposedPos) (glm.y (model_trans_loc g))
           (glm.z (model_trans_loc g)).
Definition slideZ (g : Globals) (proposedPos : vec3) : vec3 :=
  glm.Vec3 (glm.x (model_trans_loc g)) (glm.y (model_trans_loc g))
           (glm.z proposedPos).

(** Lines 510-522: the outcome once the full move is blocked. *)
Definition slide (g : Globals) (proposedPos : vec3) : Globals :=
  let xFree := negb (wouldCollideAt gBuildings (slideX g proposedPos) (rotation g)) in
  let zFree := negb (wouldCollideAt gBuildings (slideZ g proposedPos) (rotation g)) in
  if xFree && negb zFree then
    let p := glm.Vec3 (glm.x (slideX g proposedPos)) (glm.y (model_trans_loc g))
                      (glm.z (model_trans_loc g)) in
    {| model_trans_loc := p; rotation := rotation g;
       moment_before_collision := p;
       windowShouldClose := windowShouldClose g |}
  else if negb xFree && zFree then
    let p := glm.Vec3 (glm.x (model_trans_loc g)) (glm.y (model_trans_loc g))
                      (glm.z (slideZ g proposedPos)) in
    {| model_trans_loc := p; rotation := rotation g;
       moment_before_collision := p;
       windowShouldClose := windowShouldClose g |}
  else
    {| model_trans_loc := moment_before_collision g; rotation := rotation g;
       moment_before_collision := moment_before_collision g;
       windowShouldClose := windowShouldClose g |}.

(** Lines 490-523: propose, test, then commit, slide or restore. *)
Definition translationStep (window : GLFWwindow) (deltaTime : float)
    (g : Globals) : Globals :=
  let proposedPos := proposePos window deltaTime g in
  if negb (wouldCollideAt gBuildings proposedPos (rotation g)) then
    {| model_trans_loc := proposedPos; rotation := rotation g;
       moment_before_collision := proposedPos;
       windowShouldClose := windowShouldClose g |}
  else slide g proposedPos.

(** The state in which the translation block starts: the globals after
    lines 453-488. *)
Definition afterRotation (window : GLFWwindow) (g : Globals) : Globals :=
  rotationStep window (escapeStep window g).

(** One call of [processInput]. *)
Definition processInput (window : GLFWwindow) (deltaTime : float)
    (g : Globals) : Globals :=
  translationStep window deltaTime (afterRotation window g).

(** The states of the frame loop: [start] is the state in which [main]
    enters the loop, and every frame calls [processInput] once with the keys
    and the elapsed time of that frame. *)
Inductive reachable (start : Globals) : Globals -> Prop :=
| reach_start : reachable start start
| reach_frame : forall g window deltaTime,
    reachable start g ->
    reachable start (processInput window deltaTime g).

End Resolver.

(** ** The mouse callback *)

(** The globals [lastX], [lastY] and [firstMouse] (lines 33-35). *)
Record MouseState : Type := {
  lastX : float;
  lastY : float;
  firstMouse : bool
}.

(** Lines 24-25 and 33-35: the middle of the 800 by 600 window. *)
Definition initialMouse : MouseState :=
  {| lastX := F32.lit 800 2; lastY := F32.lit 600 2; firstMouse := true |}.

(** Lines 532-551.  The result is the new state of the three globals and the
    pair [(xoffset, yoffset)] handed to [camera.ProcessMouseMovement]. *)
Definition mouse_callback (ms : MouseState) (xposIn yposIn : spec_float)
  : MouseState * (float * float) :=
  let xpos := F32.of_double xposIn in
  let ypos := F32.of_double yposIn in
  let ms1 :=
    if firstMouse ms
    then {| lastX := xpos; lastY := ypos; firstMouse := false |}
    else ms in
  let xoffset := F32.sub xpos (lastX ms1) in
  let yoffset := F32.sub (lastY ms1) ypos in
  ({| lastX := xpos; lastY := ypos; firstMouse := firstMouse ms1 |},
   (xoffset, yoffset)).

(** The state after a sequence of cursor events, oldest first. *)
Definition mouse_events (ms : MouseState)
    (events : list (spec_float * spec_float)) : MouseState :=
  fold_left (fun st ev => fst (mouse_callback st (fst ev) (snd ev))) events ms.

(** ** The scene of [main] *)

(** Lines 28-29 and 230: the car at the origin, yaw zero, and the last safe
    position set to the car position. *)
Definition initialGlobals : Globals :=
  {| model_trans_loc := glm.Vec3 F32.zero F32.zero F32.zero;
     rotation := F32.zero;
     moment_before_collision := glm.Vec3 F32.zero F32.zero F32.zero;
     windowShouldClose := false |}.

(** Lines 226-228: the three buildings; all share one mesh. *)
Definition mainBuildings : list BUILDING_T :=
  [ {| buildingModel := 1;
       buildingPos := glm.Vec3 F32.zero F32.zero (F32.opp (F32.lit 5 1));
       buildingScaleFactor :=
         glm.Vec3 (F32.lit 4 100) (F32.lit 4 100) (F32.lit 4 100);
       buildingRotation := glm.radians (F32.lit 180 1) |};
    {| buildingModel := 1;
       buildingPos := glm.Vec3 (F32.lit 8 1) F32.zero (F32.opp (F32.lit 12 1));
       buildingScaleFactor :=
         glm.Vec3 (F32.lit 5 100) (F32.lit 5 100) (F32.lit 5 100);
       buildingRotation := F32.zero |};
    {| buildingModel := 1;
       buildingPos := glm.Vec3 (F32.opp (F32.lit 6 1)) F32.zero (F32.lit 2 1);
       buildingScaleFactor :=
         glm.Vec3 (F32.lit 35 1000) (F32.lit 35 1000) (F32.lit 35 1000);
       buildingRotation := F32.zero |} ].

(** ** Vocabulary of the properties *)

(** The last safe position is the car position (line 230 establishes it). *)
Definition synced (g : Globals) : Prop :=
  model_trans_loc g = moment_before_collision g.

Inductive Axis : Type := AxisX | AxisY | AxisZ.

Definition coord (ax : Axis) (v : vec3) : float :=
  match ax with
  | AxisX => glm.x v
  | AxisY => glm.y v
  | AxisZ => glm.z v
  end.

(** The condition under which [aabbOverlap] returns false for one axis. *)
Definition separatedOn (ax : Axis) (a b : AABB) : bool :=
  F32.ltb (coord ax (maxLocal a)) (coord ax (minLocal b))
  || F32.gtb (coord ax (minLocal a)) (coord ax (maxLocal b)).

(** The invariant of a box on one axis: its min is at most its max. *)
Definition orderedOn (ax : Axis) (a : AABB) : Prop :=
  F32.leb (coord ax (minLocal a)) (coord ax (maxLocal a)) = true.

(** [a] touches [b] on an axis: the max of [a] compares equal to the min of
    [b] there. *)
Definition touchesOn (ax : Axis) (a b : AABB) : Prop :=
  F32.eqb (coord ax (maxLocal a)) (coord ax (minLocal b)) = true.

(** Two buildings that differ at most in [buildingRotation]. *)
Definition sameButRotation (b1 b2 : BUILDING_T) : Prop :=
  buildingModel b1 = buildingModel b2
  /\ buildingPos b1 = buildingPos b2
  /\ buildingScaleFactor b1 = buildingScaleFactor b2.

(** No key of the resolver is down (the escape key is not one of them). *)
Definition noIntent (window : GLFWwindow) : Prop :=
  pressed window GLFW_KEY_A = false
  /\ pressed window GLFW_KEY_D = false
  /\ pressed window GLFW_KEY_W = false
  /\ pressed window GLFW_KEY_S = false
  /\ pressed window GLFW_KEY_LEFT_SHIFT = false.

(** The world box [wouldCollideAt] gives a building. *)
Definition buildingWorldAABB (b : BUILDING_T) : AABB :=
  toWorldAABB_NonRotated kBuildingLocalAABB (buildingPos b)
    (buildingScaleFactor b).

(** [a] lies within [b] on an axis. *)
Definition insideOn (ax : Axis) (a b : AABB) : Prop :=
  F32.leb (coord ax (minLocal b)) (coord ax (minLocal a)) = true
  /\ F32.leb (coord ax (maxLocal a)) (coord ax (maxLocal b)) = true.

(** The car stands clear of every building, and the last safe position is
    where it stands. *)
Definition clear {libm : Libm} (gBuildings : list BUILDING_T) (g : Globals)
  : Prop :=
  synced g
  /\ wouldCollideAt gBuildings (model_trans_loc g) (rotation g) = false.

(** The X-slide priority in the words of the specification: if the full move
    is blocked and both slide candidates are free, the call commits the
    X-only slide, so the position takes the proposed x and keeps its z. *)
Definition prefersXSlide {libm : Libm} (gBuildings : list BUILDING_T)
    (window : GLFWwindow) (deltaTime : float) (g : Globals) : Prop :=
  let g1 := afterRotation gBuildings window g in
  let proposedPos := proposePos window deltaTime g1 in
  wouldCollideAt gBuildings proposedPos (rotation g1) = true ->
  wouldCollideAt gBuildings (slideX g1 proposedPos) (rotation g1) = false ->
  wouldCollideAt gBuildings (slideZ g1 proposedPos) (rotation g1) = false ->
  let g' := processInput gBuildings window deltaTime g in
  glm.x (model_trans_loc g') = glm.x proposedPos
  /\ glm.z (model_trans_loc g') = glm.z (model_trans_loc g).

(** ** An executable math library

    To run the resolver on concrete scenes the two functions of [Libm] are
    given by their power series, evaluated in fixed point with 64 fractional
    bits and rounded once to binary32.  With sixteen factors of the nested
    form the error before rounding is below 2^-56 on the interval from -4 to
    4, which contains every yaw [wrapPi] produces from a yaw in range; beyond
    it the instance answers NaN and is not meant to be used. *)

Module Series.

Definition frac : Z := 64.
Definition unit : Z := 2 ^ frac.

(** The square of a finite number, in fixed point. *)
Definition square (a : float) : Z :=
  match a with
  | S754_finite _ m e => Z.shiftl (Zpos m * Zpos m) (2 * e + frac)
  | _ => 0
  end.

(** [horner n k x2]: the first [n] factors of the nested form
    [1 - x2/(k(k+1)) (1 - x2/((k+2)(k+3)) (1 - ...))]; with [x2] the square of
    the argument it is the cosine series from [k = 1], and the sine series
    divided by the argument from [k = 2]. *)
Fixpoint horner (n : nat) (k : Z) (x2 : Z) : Z :=
  match n with
  | O => unit
  | S n' => unit - Z.shiftr (x2 * horner n' (k + 2) x2) frac / (k * (k + 1))
  end.

Definition in_range (a : float) : bool :=
  F32.leb (F32.opp (F32.lit 4 1)) a && F32.leb a (F32.lit 4 1).

Definition sin (a : float) : float :=
  match a with
  | S754_zero _ => a
  | S754_finite s m e =>
      if in_range a then
        binary_normalize F32.prec F32.emax
          (cond_Zopp s (Zpos m) * horner 16 2 (square a)) (e - frac) false
      else S754_nan
  | _ => S754_nan
  end.

Definition cos (a : float) : float :=
  match a with
  | S754_zero _ => F32.one
  | S754_finite _ _ _ =>
      if in_range a then
        binary_normalize F32.prec F32.emax (horner 16 1 (square a)) (- frac)
          false
      else S754_nan
  | _ => S754_nan
  end.

Definition libm : Libm := {| sinf := sin; cosf := cos |}.

End Series.

(** ** Concrete scenes

    States, key sets and buildings on which the properties below are
    evaluated. *)

Module Scenes.

Definition sameKey (a b : Key) : bool :=
  match a, b with
  | GLFW_KEY_LEFT_SHIFT, GLFW_KEY_LEFT_SHIFT
  | GLFW_KEY_S, GLFW_KEY_S
  | GLFW_KEY_ESCAPE, GLFW_KEY_ESCAPE
  | GLFW_KEY_A, GLFW_KEY_A
  | GLFW_KEY_D, GLFW_KEY_D
  | GLFW_KEY_W, GLFW_KEY_W => true
  | _, _ => false
  end.

(** The window in which exactly the keys of [keys] are down. *)
Definition holding (keys : list Key) : GLFWwindow :=
  fun k => existsb (sameKey k) keys.

(** The car at [(px, 0, pz)] with yaw [yaw], the last safe position being
    the car position. *)
Definition carAt (px pz yaw : float) : Globals :=
  {| model_trans_loc := glm.Vec3 px F32.zero pz;
     rotation := yaw;
     moment_before_collision := glm.Vec3 px F32.zero pz;
     windowShouldClose := false |}.

(** The binary32 number nearest to pi/4, 0x3F490FDB. *)
Definition quarterPi : float := S754_finite false 13176795 (-24).

(** A frame of 1/64 s and a slow frame of one second. *)
Definition shortFrame : float := F32.lit 1 64.
Definition longFrame : float := F32.one.

(** The car at (2.4, 0, -2.68), heading diagonally: its box, about 1.98
    wide on either side, ends 0.02 short of the corner (0.4, -4.68) of the
    first building of [main] on both axes; one frame in reverse covers about
    0.039 on each. *)
Definition atCorner : Globals :=
  carAt (F32.lit 24 10) (F32.opp (F32.lit 268 100)) quarterPi.

(** The car at (0.5, 0, -2.68), heading diagonally: its box spans the
    first building of [main] in x and ends 0.02 short of it in z. *)
Definition facingSide : Globals :=
  carAt (F32.lit 5 10) (F32.opp (F32.lit 268 100)) quarterPi.

(** The car at (2.4, 0, -5), heading diagonally: its box spans the first
    building of [main] in z and ends 0.02 short of it in x. *)
Definition alongside : Globals :=
  carAt (F32.lit 24 10) (F32.opp (F32.lit 5 1)) quarterPi.

(** The car beside the first building of [main], 0.01 clear of its side at
    yaw zero; a yaw of 0.01 widens the car box by about 0.019. *)
Definition besideBuilding : Globals :=
  carAt (F32.lit 131 100) (F32.opp (F32.lit 5 1)) F32.zero.

(** Two buildings of scale 1/8 around the origin: one occupies
    x in [-1.25, 1.25], z in [3, 5], straight ahead; the other
    x in [0.9375, 3.4375], z in [-1, 1], just right of the car. *)
Definition wedge : list BUILDING_T :=
  [ {| buildingModel := 1;
       buildingPos := glm.Vec3 F32.zero F32.zero (F32.lit 4 1);
       buildingScaleFactor :=
         glm.Vec3 (F32.lit 125 1000) (F32.lit 125 1000) (F32.lit 125 1000);
       buildingRotation := F32.zero |};
    {| buildingModel := 1;
       buildingPos := glm.Vec3 (F32.lit 21875 10000) F32.zero F32.zero;
       buildingScaleFactor :=
         glm.Vec3 (F32.lit 125 1000) (F32.lit 125 1000) (F32.lit 125 1000);
       buildingRotation := F32.zero |} ].

(** The buildings of [main], each turned by a quarter of pi more. *)
Definition mainBuildingsTurned : list BUILDING_T :=
  map (fun b =>
         {| buildingModel := buildingModel b;
            buildingPos := buildingPos b;
            buildingScaleFactor := buildingScaleFactor b;
            buildingRotation := F32.add (buildingRotation b) quarterPi |})
      mainBuildings.

(** The cube from [lo] to [hi] on every axis, shifted by [dx] along x. *)
Definition cube (lo hi dx : float) : AABB :=
  {| minLocal := glm.Vec3 (F32.add lo dx) lo lo;
     maxLocal := glm.Vec3 (F32.add hi dx) hi hi |}.

End Scenes.

(** * Properties *)

(** ** The order of binary32 numbers *)

Module F32Facts.

Lemma lex_Lt (p q : Z * Z * Z) :
  F32.lex p q = Lt <->
  let '(a1, b1, c1) := p in
  let '(a2, b2, c2) := q in
  a1 < a2 \/ (a1 = a2 /\ (b1 < b2 \/ (b1 = b2 /\ c1 < c2))).
Proof.
  destruct p as [[a1 b1] c1], q as [[a2 b2] c2]; unfold F32.lex.
  destruct (Z.compare_spec a1 a2), (Z.compare_spec b1 b2),
    (Z.compare_spec c1 c2); split; intros Hlt; try discriminate;
    try reflexivity; lia.
Qed.

Lemma lex_Eq (p q : Z * Z * Z) : F32.lex p q = Eq <-> p = q.
Proof.
  destruct p as [[a1 b1] c1], q as [[a2 b2] c2]; unfold F32.lex.
  destruct (Z.compare_spec a1 a2), (Z.compare_spec b1 b2),
    (Z.compare_spec c1 c2); split; intros Heq; try discriminate;
    try reflexivity; try (injection Heq; lia); subst; reflexivity.
Qed.

Lemma lex_antisym (p q : Z * Z * Z) : F32.lex q p = CompOpp (F32.lex p q).
Proof.
  destruct p as [[a1 b1] c1], q as [[a2 b2] c2]; unfold F32.lex.
  rewrite (Z.compare_antisym a1 a2), (Z.compare_antisym b1 b2),
    (Z.compare_antisym c1 c2).
  destruct (a1 ?= a2), (b1 ?= b2), (c1 ?= c2); reflexivity.
Qed.

(** [SFcompare] is the lexicographic comparison of the ranks. *)
Lemma compare_rank (x y : float) :
  SFcompare x y =
  match F32.rank x, F32.rank y with
  | Some p, Some q => Some (F32.lex p q)
  | _, _ => None
  end.
Proof.
  destruct x as [sx | sx | | sx mx ex], y as [sy | sy | | sy my ey];
    try destruct sx; try destruct sy; try reflexivity.
  (* two negative finite numbers: the larger exponent is the smaller number *)
  cbn -[Z.compare]. rewrite Z.compare_opp, (Z.compare_antisym ex ey).
  destruct (ex ?= ey); reflexivity.
Qed.

(** [a > b] is [b < a], NaN included. *)
Lemma gtb_ltb (x y : float) : F32.gtb x y = F32.ltb y x.
Proof.
  unfold F32.gtb, F32.ltb, SFltb. rewrite !compare_rank.
  destruct (F32.rank x) as [p |], (F32.rank y) as [q |]; try reflexivity.
  rewrite (lex_antisym p q). destruct (F32.lex p q); reflexivity.
Qed.

(** Numbers that compare equal are not below one another. *)
Lemma eqb_not_ltb (x y : float) : F32.eqb x y = true -> F32.ltb x y = false.
Proof.
  unfold F32.eqb, F32.ltb, SFeqb, SFltb.
  destruct (SFcompare x y) as [[] |]; intros H; try discriminate; reflexivity.
Qed.

(** A chain [a <= b == c <= d] excludes [a > d]. *)
Lemma chain_not_gtb (a b c d : float) :
  F32.leb a b = true -> F32.eqb b c = true -> F32.leb c d = true ->
  F32.gtb a d = false.
Proof.
  rewrite gtb_ltb.
  unfold F32.leb, F32.eqb, F32.ltb, SFleb, SFeqb, SFltb.
  rewrite !compare_rank.
  destruct (F32.rank a) as [p |], (F32.rank b) as [q |],
    (F32.rank c) as [r |], (F32.rank d) as [s |]; try discriminate.
  intros Hab Hbc Hcd.
  assert (Hqr : q = r) by (apply lex_Eq; destruct (F32.lex q r); congruence).
  subst r.
  destruct (F32.lex s p) eqn:Hsp; try reflexivity. exfalso.
  apply lex_Lt in Hsp.
  assert (Hpq : F32.lex p q = Lt \/ F32.lex p q = Eq)
    by (destruct (F32.lex p q); auto; discriminate).
  assert (Hqs : F32.lex q s = Lt \/ F32.lex q s = Eq)
    by (destruct (F32.lex q s); auto; discriminate).
  rewrite !lex_Lt, !lex_Eq in Hpq, Hqs.
  destruct p as [[a1 b1] c1], q as [[a2 b2] c2], s as [[a3 b3] c3].
  destruct Hpq as [Hpq | Hpq], Hqs as [Hqs | Hqs];
    try (injection Hpq as ? ? ?); try (injection Hqs as ? ? ?); lia.
Qed.

(** A number that is at most another is not a NaN and equals itself. *)
Lemma leb_eqb_right (x y : float) : F32.leb x y = true -> F32.eqb y y = true.
Proof.
  unfold F32.leb, F32.eqb, SFleb, SFeqb. rewrite !compare_rank.
  destruct (F32.rank x) as [p |], (F32.rank y) as [q |]; try discriminate.
  intros _. replace (F32.lex q q) with Eq; [reflexivity |].
  symmetry. apply lex_Eq. reflexivity.
Qed.

(** [a <= b <= d] excludes [a > d]. *)
Lemma leb_leb_not_gtb (a b d : float) :
  F32.leb a b = true -> F32.leb b d = true -> F32.gtb a d = false.
Proof.
  intros Hab Hbd.
  exact (chain_not_gtb _ _ _ _ Hab (leb_eqb_right _ _ Hab) Hbd).
Qed.

Lemma leb_not_gtb (x y : float) : F32.leb x y = true -> F32.gtb x y = false.
Proof.
  unfold F32.leb, F32.gtb, SFleb.
  destruct (SFcompare x y) as [[] |]; intros Hle; try discriminate;
    reflexivity.
Qed.

Lemma leb_not_ltb (x y : float) : F32.leb x y = true -> F32.ltb y x = false.
Proof.
  intros Hle. rewrite <- gtb_ltb. apply leb_not_gtb. exact Hle.
Qed.

(** A number that is neither a NaN nor an infinity, minus itself, is the
    positive zero. *)
Lemma sub_diag (x : float) : F32.is_finite x = true -> F32.sub x x = F32.zero.
Proof.
  destruct x as [[] | | | s m e]; intros Hfin; try discriminate;
    try reflexivity.
  unfold F32.sub, SFsub. rewrite Z.sub_diag. reflexivity.
Qed.

End F32Facts.

(** ** Geometry primitives *)

Section Geometry.

(** [aabbOverlap] holds exactly when no axis separates the boxes. *)
Lemma aabbOverlap_separated (a b : AABB) :
  aabbOverlap a b =
  negb (separatedOn AxisX a b) && negb (separatedOn AxisY a b)
  && negb (separatedOn AxisZ a b).
Proof.
  unfold aabbOverlap, separatedOn, coord.
  destruct (F32.ltb (glm.x (maxLocal a)) (glm.x (minLocal b))
            || F32.gtb (glm.x (minLocal a)) (glm.x (maxLocal b)));
    [reflexivity |].
  destruct (F32.ltb (glm.y (maxLocal a)) (glm.y (minLocal b))
            || F32.gtb (glm.y (minLocal a)) (glm.y (maxLocal b)));
    [reflexivity |].
  destruct (F32.ltb (glm.z (maxLocal a)) (glm.z (minLocal b))
            || F32.gtb (glm.z (minLocal a)) (glm.z (maxLocal b)));
    reflexivity.
Qed.

(** Separation on an axis does not depend on the order of the boxes. *)
Lemma separatedOn_sym (ax : Axis) (a b : AABB) :
  separatedOn ax a b = separatedOn ax b a.
Proof.
  unfold separatedOn. rewrite !F32Facts.gtb_ltb. apply orb_comm.
Qed.

(** C8. The overlap test is symmetric: for all boxes [a] and [b],
    [aabbOverlap a b] and [aabbOverlap b a] are the same boolean. *)
Theorem aabbOverlap_symmetric (a b : AABB) :
  aabbOverlap a b = aabbOverlap b a.
Proof.
  rewrite !aabbOverlap_separated.
  rewrite (separatedOn_sym AxisX a b), (separatedOn_sym AxisY a b),
    (separatedOn_sym AxisZ a b).
  reflexivity.
Qed.

(** Two ordered boxes that touch on an axis are not separated on it. *)
Lemma touching_not_separated (ax : Axis) (a b : AABB) :
  orderedOn ax a -> orderedOn ax b -> touchesOn ax a b ->
  separatedOn ax a b = false.
Proof.
  unfold orderedOn, touchesOn, separatedOn. intros Ha Hb Ht.
  rewrite (F32Facts.eqb_not_ltb _ _ Ht).
  rewrite (F32Facts.chain_not_gtb _ _ _ _ Ha Ht Hb).
  reflexivity.
Qed.

(** C4. Touching counts as overlapping: when the max of [a] equals the min
    of [b] on one axis, both boxes have their min at most their max on that
    axis, and no other axis separates them, [aabbOverlap a b] is true. *)
Theorem aabbOverlap_touching (ax : Axis) (a b : AABB) :
  orderedOn ax a -> orderedOn ax b ->
  touchesOn ax a b ->
  (forall ax', ax' <> ax -> separatedOn ax' a b = false) ->
  aabbOverlap a b = true.
Proof.
  intros Ha Hb Ht Hothers.
  pose proof (touching_not_separated Ha Hb Ht) as Hax.
  assert (Hall : forall ax', separatedOn ax' a b = false).
  { intros ax'. destruct ax, ax'; try exact Hax;
      apply Hothers; discriminate. }
  rewrite aabbOverlap_separated, !Hall. reflexivity.
Qed.

(** Two unit cubes side by side along x, [0, 1] and [1, 2], overlap. *)
Lemma aabbOverlap_touching_witness :
  aabbOverlap (Scenes.cube F32.zero F32.one F32.zero)
              (Scenes.cube F32.zero F32.one F32.one) = true.
Proof.
  apply (@aabbOverlap_touching AxisX).
  - reflexivity.
  - reflexivity.
  - reflexivity.
  - intros ax' _. destruct ax'; reflexivity.
Defined.

End Geometry.

(** ** Collision world query *)

Section CollisionWorld.

Context {libm : Libm}.

Lemma overlapsAny_ignores_rotation (carW : AABB) (bs1 bs2 : list BUILDING_T) :
  Forall2 sameButRotation bs1 bs2 ->
  overlapsAny carW bs1 = overlapsAny carW bs2.
Proof.
  induction 1 as [| b1 b2 rest1 rest2 [_ [Hpos Hscale]] _ IH]; simpl.
  - reflexivity.
  - rewrite Hpos, Hscale, IH. reflexivity.
Qed.

(** C7. The answer of [wouldCollideAt] does not depend on any building's
    rotation: two lists of buildings that agree entry by entry on everything
    except [buildingRotation] give the same boolean at every proposed
    position and yaw. *)
Theorem wouldCollideAt_ignores_rotation (bs1 bs2 : list BUILDING_T)
    (proposedCarPos : vec3) (proposedYaw : float) :
  Forall2 sameButRotation bs1 bs2 ->
  wouldCollideAt bs1 proposedCarPos proposedYaw
  = wouldCollideAt bs2 proposedCarPos proposedYaw.
Proof.
  intros Hsame. unfold wouldCollideAt.
  apply overlapsAny_ignores_rotation. exact Hsame.
Qed.

End CollisionWorld.

(** The scene of [main] and the same scene with every building turned,
    queried where the car stands beside the first building. *)
Lemma wouldCollideAt_ignores_rotation_witness :
  wouldCollideAt (libm := Series.libm) mainBuildings
    (model_trans_loc Scenes.besideBuilding) ROTATION_SPEED
  = wouldCollideAt (libm := Series.libm) Scenes.mainBuildingsTurned
      (model_trans_loc Scenes.besideBuilding) ROTATION_SPEED.
Proof.
  apply wouldCollideAt_ignores_rotation.
  repeat constructor.
Defined.

(** ** Movement resolver *)

Section ResolverFacts.

Context {libm : Libm}.
Variable gBuildings : list BUILDING_T.

(** C6. The speed of a frame is [CAR_SPEED * CAR_SPEED_BOOST_FACTOR]
    exactly when the boost key is down and the reverse key is not, and
    [CAR_SPEED] otherwise; with the reverse key down it is [CAR_SPEED]
    whatever the boost key. *)
Theorem effectiveSpeed_boost (window : GLFWwindow) :
  (effectiveSpeed window = F32.mul CAR_SPEED CAR_SPEED_BOOST_FACTOR
   <-> pressed window GLFW_KEY_LEFT_SHIFT = true
       /\ pressed window GLFW_KEY_S = false)
  /\ (effectiveSpeed window = CAR_SPEED
      <-> ~ (pressed window GLFW_KEY_LEFT_SHIFT = true
             /\ pressed window GLFW_KEY_S = false))
  /\ (pressed window GLFW_KEY_S = true -> effectiveSpeed window = CAR_SPEED).
Proof.
  assert (Hne : F32.mul CAR_SPEED CAR_SPEED_BOOST_FACTOR <> CAR_SPEED)
    by (vm_compute; discriminate).
  unfold effectiveSpeed.
  destruct (pressed window GLFW_KEY_LEFT_SHIFT),
    (pressed window GLFW_KEY_S); cbn [andb negb];
    (split; [| split]); try split; intros; try reflexivity; try congruence;
    try tauto;
    solve [ match goal with Hc : _ /\ _ |- _ => destruct Hc; discriminate end
          | intros [? ?]; discriminate ].
Qed.

(** *** Frame lemmas: what each block leaves alone *)

Lemma escapeStep_frame (window : GLFWwindow) (g : Globals) :
  model_trans_loc (escapeStep window g) = model_trans_loc g
  /\ rotation (escapeStep window g) = rotation g
  /\ moment_before_collision (escapeStep window g) = moment_before_collision g.
Proof.
  unfold escapeStep. destruct (pressed window GLFW_KEY_ESCAPE); auto.
Qed.

Lemma rotationStep_frame (window : GLFWwindow) (g : Globals) :
  model_trans_loc (rotationStep gBuildings window g) = model_trans_loc g
  /\ moment_before_collision (rotationStep gBuildings window g)
     = moment_before_collision g.
Proof.
  unfold rotationStep.
  destruct (rotated window); auto.
  destruct (negb _); auto.
Qed.

Lemma afterRotation_frame (window : GLFWwindow) (g : Globals) :
  model_trans_loc (afterRotation gBuildings window g) = model_trans_loc g
  /\ moment_before_collision (afterRotation gBuildings window g)
     = moment_before_collision g.
Proof.
  unfold afterRotation.
  destruct (rotationStep_frame window (escapeStep window g)) as [Hl Hm].
  destruct (escapeStep_frame window g) as [Hl' [_ Hm']].
  rewrite Hl, Hm, Hl', Hm'. auto.
Qed.

Lemma slide_rotation (g : Globals) (proposedPos : vec3) :
  rotation (slide gBuildings g proposedPos) = rotation g.
Proof.
  unfold slide.
  destruct (negb (wouldCollideAt gBuildings (slideX g proposedPos) (rotation g))),
    (negb (wouldCollideAt gBuildings (slideZ g proposedPos) (rotation g)));
    reflexivity.
Qed.

Lemma translationStep_rotation (window : GLFWwindow) (deltaTime : float)
    (g : Globals) :
  rotation (translationStep gBuildings window deltaTime g) = rotation g.
Proof.
  unfold translationStep.
  destruct (negb _); [reflexivity | apply slide_rotation].
Qed.

(** Without a rotation key the rotation block changes nothing. *)
Lemma rotationStep_idle (window : GLFWwindow) (g : Globals) :
  rotated window = false -> rotationStep gBuildings window g = g.
Proof.
  unfold rotationStep. intros Hr. rewrite Hr. reflexivity.
Qed.

(** *** The last safe position *)

Lemma slide_synced (g : Globals) (proposedPos : vec3) :
  synced (slide gBuildings g proposedPos).
Proof.
  unfold synced, slide.
  destruct (negb (wouldCollideAt gBuildings (slideX g proposedPos) (rotation g))),
    (negb (wouldCollideAt gBuildings (slideZ g proposedPos) (rotation g)));
    reflexivity.
Qed.

Lemma translationStep_synced (window : GLFWwindow) (deltaTime : float)
    (g : Globals) :
  synced (translationStep gBuildings window deltaTime g).
Proof.
  unfold translationStep.
  destruct (negb _); [reflexivity | apply slide_synced].
Qed.

(** Every branch of the translation policy ends with the two equal. *)
Lemma processInput_synced (window : GLFWwindow) (deltaTime : float)
    (g : Globals) :
  synced (processInput gBuildings window deltaTime g).
Proof.
  unfold processInput. apply translationStep_synced.
Qed.

(** The equality is an invariant of the frame loop. *)
Lemma reachable_synced (start g : Globals) :
  synced start -> reachable gBuildings start g -> synced g.
Proof.
  intros Hstart Hreach.
  induction Hreach as [| g window deltaTime _ _].
  - exact Hstart.
  - apply processInput_synced.
Qed.

(** C9. In the frame loop the car position always equals the last safe
    position: if the two are equal when the loop starts, they are equal in
    every state the loop reaches, and again after the next call of
    [processInput], whichever branch of the translation policy it takes. *)
Theorem position_is_last_safe (start g : Globals) :
  synced start -> reachable gBuildings start g ->
  synced g
  /\ forall window deltaTime,
       model_trans_loc (processInput gBuildings window deltaTime g)
       = moment_before_collision (processInput gBuildings window deltaTime g).
Proof.
  intros Hstart Hreach. split.
  - exact (reachable_synced Hstart Hreach).
  - intros window deltaTime. apply processInput_synced.
Qed.

(** *** Rotation *)

(** C5. A blocked rotation is rejected silently: when a rotation key is down
    and the proposed yaw collides at the current position, the rotation block
    (lines 461-488) leaves every global as it was, and the yaw after the whole
    call of [processInput] is the yaw before it. *)
Theorem blocked_rotation_rejected (window : GLFWwindow) (deltaTime : float)
    (g : Globals) :
  rotated window = true ->
  wouldCollideAt gBuildings (model_trans_loc g)
    (proposeYaw window (rotation g)) = true ->
  rotationStep gBuildings window g = g
  /\ rotation (processInput gBuildings window deltaTime g) = rotation g.
Proof.
  intros Hrot Hblocked.
  assert (Hstep : forall g', model_trans_loc g' = model_trans_loc g ->
                             rotation g' = rotation g ->
                             rotationStep gBuildings window g' = g').
  { intros g' Hl Hr. unfold rotationStep.
    rewrite Hrot, Hl, Hr, Hblocked. reflexivity. }
  split.
  - apply Hstep; reflexivity.
  - unfold processInput, afterRotation.
    rewrite translationStep_rotation.
    destruct (escapeStep_frame window g) as [Hl [Hr _]].
    rewrite (Hstep _ Hl Hr). exact Hr.
Qed.

(** *** Translation *)

Lemma forwardIntent_idle (window : GLFWwindow) :
  pressed window GLFW_KEY_W = false -> pressed window GLFW_KEY_S = false ->
  forwardIntent window = F32.zero.
Proof.
  unfold forwardIntent. intros HW HS. rewrite HW, HS. reflexivity.
Qed.

Lemma proposePos_idle (window : GLFWwindow) (deltaTime : float) (g : Globals) :
  pressed window GLFW_KEY_W = false -> pressed window GLFW_KEY_S = false ->
  proposePos window deltaTime g = model_trans_loc g.
Proof.
  intros HW HS. unfold proposePos.
  rewrite (forwardIntent_idle window HW HS). reflexivity.
Qed.

(** A proposal never touches the height of the car. *)
Lemma proposePos_y (window : GLFWwindow) (deltaTime : float) (g : Globals) :
  glm.y (proposePos window deltaTime g) = glm.y (model_trans_loc g).
Proof.
  unfold proposePos. destruct (F32.neb _ _); reflexivity.
Qed.

(** Both slide candidates of a proposal at the current position are the
    current position. *)
Lemma slide_candidates_idle (g : Globals) :
  slideX g (model_trans_loc g) = model_trans_loc g
  /\ slideZ g (model_trans_loc g) = model_trans_loc g.
Proof.
  unfold slideX, slideZ. destruct (model_trans_loc g); auto.
Qed.

(** With no translation proposed, the translation block keeps a synced
    state as it is. *)
Lemma translationStep_idle (window : GLFWwindow) (deltaTime : float)
    (g : Globals) :
  synced g ->
  pressed window GLFW_KEY_W = false -> pressed window GLFW_KEY_S = false ->
  translationStep gBuildings window deltaTime g = g.
Proof.
  unfold synced. intros Hs HW HS. unfold translationStep, slide.
  rewrite (proposePos_idle window deltaTime g HW HS).
  destruct (slide_candidates_idle g) as [HX HZ]. rewrite HX, HZ.
  destruct g as [loc yaw safe close].
  cbn [model_trans_loc rotation moment_before_collision windowShouldClose] in *.
  subst safe.
  destruct (wouldCollideAt gBuildings loc yaw); reflexivity.
Qed.

(** C3. With no rotation, forward, backward or boost key down, a call of
    [processInput] in any state of the frame loop leaves the pose as it was,
    position and yaw, whatever the elapsed time. *)
Theorem no_intent_keeps_pose (start g : Globals) (window : GLFWwindow)
    (deltaTime : float) :
  synced start -> reachable gBuildings start g ->
  noIntent window ->
  model_trans_loc (processInput gBuildings window deltaTime g)
  = model_trans_loc g
  /\ rotation (processInput gBuildings window deltaTime g) = rotation g.
Proof.
  intros Hstart Hreach (HA & HD & HW & HS & _).
  pose proof (reachable_synced Hstart Hreach) as Hsync.
  destruct (escapeStep_frame window g) as [Hl [Hr Hm]].
  assert (Hidle : afterRotation gBuildings window g = escapeStep window g).
  { apply rotationStep_idle. unfold rotated. rewrite HA, HD. reflexivity. }
  unfold processInput. rewrite Hidle, translationStep_idle; auto.
  unfold synced. rewrite Hl, Hm. exact Hsync.
Qed.

(** The translation block keeps the height of a synced state. *)
Lemma translationStep_y (window : GLFWwindow) (deltaTime : float)
    (g : Globals) :
  synced g ->
  glm.y (model_trans_loc (translationStep gBuildings window deltaTime g))
  = glm.y (model_trans_loc g).
Proof.
  unfold synced. intros Hs. unfold translationStep.
  destruct (negb _).
  - apply proposePos_y.
  - unfold slide.
    destruct (negb (wouldCollideAt gBuildings (slideX g _) (rotation g))),
      (negb (wouldCollideAt gBuildings (slideZ g _) (rotation g)));
      cbn [andb negb model_trans_loc glm.y]; try reflexivity;
      rewrite <- Hs; reflexivity.
Qed.

(** C10. A call of [processInput] never changes the height of the car: in
    any state of the frame loop, for all keys and every elapsed time, the y
    component of the position after the call is the one before it. *)
Theorem height_unchanged (start g : Globals) (window : GLFWwindow)
    (deltaTime : float) :
  synced start -> reachable gBuildings start g ->
  glm.y (model_trans_loc (processInput gBuildings window deltaTime g))
  = glm.y (model_trans_loc g).
Proof.
  intros Hstart Hreach.
  pose proof (reachable_synced Hstart Hreach) as Hsync.
  destruct (afterRotation_frame window g) as [Hl Hm].
  unfold processInput. rewrite translationStep_y.
  - rewrite Hl. reflexivity.
  - unfold synced. rewrite Hl, Hm. exact Hsync.
Qed.

(** When the full move and both slides are blocked, or when neither slide is
    blocked, the translation block restores the last safe position. *)
Lemma translationStep_restore (window : GLFWwindow) (deltaTime : float)
    (g : Globals) (free : bool) :
  let proposedPos := proposePos window deltaTime g in
  wouldCollideAt gBuildings proposedPos (rotation g) = true ->
  wouldCollideAt gBuildings (slideX g proposedPos) (rotation g) = negb free ->
  wouldCollideAt gBuildings (slideZ g proposedPos) (rotation g) = negb free ->
  model_trans_loc (translationStep gBuildings window deltaTime g)
  = moment_before_collision g
  /\ moment_before_collision (translationStep gBuildings window deltaTime g)
     = moment_before_collision g.
Proof.
  intros proposedPos Hfull HX HZ. unfold translationStep, slide.
  fold proposedPos. rewrite Hfull, HX, HZ.
  destruct free; split; reflexivity.
Qed.

(** C2. Full block restores the last safe position: in any state of the
    frame loop, when the proposed move and both slide candidates collide,
    after the call the position equals the last safe position, and both are
    what they were before the call. *)
Theorem full_block_restores (start g : Globals) (window : GLFWwindow)
    (deltaTime : float) :
  synced start -> reachable gBuildings start g ->
  let g1 := afterRotation gBuildings window g in
  let proposedPos := proposePos window deltaTime g1 in
  wouldCollideAt gBuildings proposedPos (rotation g1) = true ->
  wouldCollideAt gBuildings (slideX g1 proposedPos) (rotation g1) = true ->
  wouldCollideAt gBuildings (slideZ g1 proposedPos) (rotation g1) = true ->
  let g' := processInput gBuildings window deltaTime g in
  model_trans_loc g' = moment_before_collision g'
  /\ model_trans_loc g' = model_trans_loc g
  /\ moment_before_collision g' = moment_before_collision g.
Proof.
  intros Hstart Hreach g1 proposedPos Hfull HX HZ g'.
  pose proof (reachable_synced Hstart Hreach) as Hsync.
  destruct (afterRotation_frame window g) as [_ Hm].
  destruct (@translationStep_restore window deltaTime g1 false Hfull HX HZ)
    as [Hloc Hsafe].
  fold g1 in Hm. unfold g', processInput. fold g1.
  rewrite Hloc, Hsafe, Hm. unfold synced in Hsync. rewrite Hsync. auto.
Qed.

(** C1, as the code has it. When the proposed move collides and both slide
    candidates are free, [processInput] commits neither slide: the position
    becomes the last safe position, which stays what it was; so where the
    two were equal before the call, as in every state of the frame loop, the
    car does not move. *)
Theorem both_free_commits_no_slide (g : Globals) (window : GLFWwindow)
    (deltaTime : float) :
  let g1 := afterRotation gBuildings window g in
  let proposedPos := proposePos window deltaTime g1 in
  wouldCollideAt gBuildings proposedPos (rotation g1) = true ->
  wouldCollideAt gBuildings (slideX g1 proposedPos) (rotation g1) = false ->
  wouldCollideAt gBuildings (slideZ g1 proposedPos) (rotation g1) = false ->
  let g' := processInput gBuildings window deltaTime g in
  model_trans_loc g' = moment_before_collision g
  /\ moment_before_collision g' = moment_before_collision g
  /\ (synced g -> model_trans_loc g' = model_trans_loc g).
Proof.
  intros g1 proposedPos Hfull HX HZ g'.
  destruct (afterRotation_frame window g) as [_ Hm].
  destruct (@translationStep_restore window deltaTime g1 true Hfull HX HZ)
    as [Hloc Hsafe].
  fold g1 in Hm. unfold g', processInput. fold g1.
  rewrite Hloc, Hsafe, Hm. unfold synced.
  repeat split; auto.
Qed.

End ResolverFacts.

(** ** Further properties of the geometry *)

Section MoreGeometry.

Lemma inside_not_separated (ax : Axis) (a b : AABB) :
  orderedOn ax a -> insideOn ax a b -> separatedOn ax a b = false.
Proof.
  unfold orderedOn, insideOn, separatedOn. intros Ha [Hmin Hmax].
  rewrite <- F32Facts.gtb_ltb.
  rewrite (F32Facts.leb_leb_not_gtb _ _ _ Hmin Ha).
  rewrite (F32Facts.leb_leb_not_gtb _ _ _ Ha Hmax).
  reflexivity.
Qed.

(** X4. A box with its min at most its max on every axis that lies within
    another box overlaps it. *)
Theorem aabbOverlap_inside (a b : AABB) :
  (forall ax, orderedOn ax a) -> (forall ax, insideOn ax a b) ->
  aabbOverlap a b = true.
Proof.
  intros Ha Hin. rewrite aabbOverlap_separated.
  rewrite !inside_not_separated by auto. reflexivity.
Qed.

(** X5. A box with its min at most its max on every axis overlaps itself. *)
Theorem aabbOverlap_self (a : AABB) :
  (forall ax, orderedOn ax a) -> aabbOverlap a a = true.
Proof.
  intros Ha. rewrite aabbOverlap_separated.
  assert (Hsep : forall ax, separatedOn ax a a = false).
  { intros ax. unfold separatedOn.
    rewrite (F32Facts.leb_not_ltb _ _ (Ha ax)).
    rewrite (F32Facts.leb_not_gtb _ _ (Ha ax)). reflexivity. }
  rewrite !Hsep. reflexivity.
Qed.

(** X6. [wrapPi] leaves a yaw between minus pi and pi as it is. *)
Theorem wrapPi_in_range (a : float) :
  F32.leb (F32.opp F32.pi) a = true -> F32.leb a F32.pi = true ->
  wrapPi a = a.
Proof.
  intros Hlo Hhi. unfold wrapPi.
  rewrite (F32Facts.leb_not_gtb _ _ Hhi).
  rewrite (F32Facts.leb_not_ltb _ _ Hlo). reflexivity.
Qed.

End MoreGeometry.

(** ** Further properties of the collision query *)

Section MoreCollisionWorld.

Context {libm : Libm}.

Lemma overlapsAny_exists (carW : AABB) (bs : list BUILDING_T) :
  overlapsAny carW bs = true
  <-> exists b, In b bs /\ aabbOverlap carW (buildingWorldAABB b) = true.
Proof.
  induction bs as [| b rest IH]; simpl.
  - split; [discriminate | intros [b [[] _]]].
  - fold (buildingWorldAABB b).
    destruct (aabbOverlap carW (buildingWorldAABB b)) eqn:Hb.
    + split; [| reflexivity]. intros _. exists b. auto.
    + rewrite IH. split.
      * intros [b' [Hin Ho]]. exists b'. auto.
      * intros [b' [[Heq | Hin] Ho]].
        -- subst b'. congruence.
        -- exists b'. auto.
Qed.

(** X1. The loop with its early return answers true exactly when some building
    of the list has a world box that overlaps the car box. *)
Theorem wouldCollideAt_exists (bs : list BUILDING_T) (proposedCarPos : vec3)
    (proposedYaw : float) :
  wouldCollideAt bs proposedCarPos proposedYaw = true
  <-> exists b, In b bs
      /\ aabbOverlap (carWorldAABBAt proposedCarPos proposedYaw)
           (buildingWorldAABB b) = true.
Proof.
  unfold wouldCollideAt. apply overlapsAny_exists.
Qed.

(** X2. More buildings never free a position: a pose that collides in a scene
    collides in every scene that contains the buildings of the first. *)
Theorem wouldCollideAt_more_buildings (bs1 bs2 : list BUILDING_T)
    (proposedCarPos : vec3) (proposedYaw : float) :
  incl bs1 bs2 ->
  wouldCollideAt bs1 proposedCarPos proposedYaw = true ->
  wouldCollideAt bs2 proposedCarPos proposedYaw = true.
Proof.
  intros Hincl. unfold wouldCollideAt. rewrite !overlapsAny_exists.
  intros [b [Hin Ho]]. exists b. split; [apply Hincl; exact Hin | exact Ho].
Qed.

(** X3. The order in which the buildings were pushed does not matter. *)
Theorem wouldCollideAt_permutation (bs1 bs2 : list BUILDING_T)
    (proposedCarPos : vec3) (proposedYaw : float) :
  Permutation bs1 bs2 ->
  wouldCollideAt bs1 proposedCarPos proposedYaw
  = wouldCollideAt bs2 proposedCarPos proposedYaw.
Proof.
  intros Hperm. apply eq_true_iff_eq. unfold wouldCollideAt.
  rewrite !overlapsAny_exists.
  split; intros [b [Hin Ho]]; exists b; split; try exact Ho.
  - exact (Permutation_in b Hperm Hin).
  - exact (Permutation_in b (Permutation_sym Hperm) Hin).
Qed.

End MoreCollisionWorld.

(** ** Further properties of the resolver *)

Section MoreResolver.

Context {libm : Libm}.
Variable gBuildings : list BUILDING_T.

(** X7. The yaw after a call: the proposed yaw if a rotation key is down and the
    proposal is free at the position before the call, the old yaw in every
    other case; the translation keys, the boost key and the elapsed time have
    no say. *)
Theorem rotation_resolved (window : GLFWwindow) (deltaTime : float)
    (g : Globals) :
  rotation (processInput gBuildings window deltaTime g)
  = if rotated window
       && negb (wouldCollideAt gBuildings (model_trans_loc g)
                  (proposeYaw window (rotation g)))
    then proposeYaw window (rotation g)
    else rotation g.
Proof.
  unfold processInput, afterRotation.
  rewrite translationStep_rotation.
  destruct (escapeStep_frame window g) as [Hl [Hr _]].
  unfold rotationStep. rewrite Hl, Hr.
  destruct (rotated window); cbn [andb]; [| exact Hr].
  destruct (wouldCollideAt gBuildings (model_trans_loc g)
              (proposeYaw window (rotation g))); cbn [negb];
    [exact Hr | reflexivity].
Qed.

Lemma slide_close (g : Globals) (proposedPos : vec3) :
  windowShouldClose (slide gBuildings g proposedPos) = windowShouldClose g.
Proof.
  unfold slide.
  destruct (negb (wouldCollideAt gBuildings (slideX g proposedPos) (rotation g))),
    (negb (wouldCollideAt gBuildings (slideZ g proposedPos) (rotation g)));
    reflexivity.
Qed.

(** X8. The close request is raised by the escape key and never withdrawn: after
    a call the flag is set exactly when it was set before or the key is
    down. *)
Theorem close_request_kept (window : GLFWwindow) (deltaTime : float)
    (g : Globals) :
  windowShouldClose (processInput gBuildings window deltaTime g)
  = windowShouldClose g || pressed window GLFW_KEY_ESCAPE.
Proof.
  unfold processInput, afterRotation, translationStep.
  assert (Hrot : forall g0, windowShouldClose (rotationStep gBuildings window g0)
                            = windowShouldClose g0).
  { intros g0. unfold rotationStep.
    destruct (rotated window); [| reflexivity].
    destruct (negb _); reflexivity. }
  destruct (negb (wouldCollideAt gBuildings _ _)); [cbn [windowShouldClose] |
    rewrite slide_close]; rewrite Hrot; unfold escapeStep;
    destruct (pressed window GLFW_KEY_ESCAPE); cbn [windowShouldClose];
    destruct (windowShouldClose g); reflexivity.
Qed.

(** X9. A call puts the car nowhere but at the proposed position, at one of the
    two slide candidates, or at the last safe position. *)
Theorem position_outcomes (window : GLFWwindow) (deltaTime : float)
    (g : Globals) :
  let g1 := afterRotation gBuildings window g in
  let proposedPos := proposePos window deltaTime g1 in
  let after := model_trans_loc (processInput gBuildings window deltaTime g) in
  after = proposedPos
  \/ after = slideX g1 proposedPos
  \/ after = slideZ g1 proposedPos
  \/ after = moment_before_collision g.
Proof.
  intros g1 proposedPos after.
  destruct (afterRotation_frame gBuildings window g) as [_ Hm]. fold g1 in Hm.
  unfold after, processInput, translationStep. fold g1. fold proposedPos.
  destruct (negb (wouldCollideAt gBuildings proposedPos (rotation g1)));
    [left; reflexivity |].
  unfold slide.
  destruct (negb (wouldCollideAt gBuildings (slideX g1 proposedPos) (rotation g1))),
    (negb (wouldCollideAt gBuildings (slideZ g1 proposedPos) (rotation g1)));
    cbn [andb negb model_trans_loc]; rewrite ?Hm; auto.
Qed.

(** X10. A free move is committed: when the proposed position is free under the
    yaw resolved by the rotation block, it becomes both the position and the
    last safe position. *)
Theorem full_move_commits (window : GLFWwindow) (deltaTime : float)
    (g : Globals) :
  let g1 := afterRotation gBuildings window g in
  let proposedPos := proposePos window deltaTime g1 in
  wouldCollideAt gBuildings proposedPos (rotation g1) = false ->
  model_trans_loc (processInput gBuildings window deltaTime g) = proposedPos
  /\ moment_before_collision (processInput gBuildings window deltaTime g)
     = proposedPos.
Proof.
  intros g1 proposedPos Hfree.
  unfold processInput, translationStep. fold g1. fold proposedPos.
  rewrite Hfree. split; reflexivity.
Qed.

(** X11. The X slide: when the full move and the Z-only candidate are blocked and
    the X-only candidate is free, the position takes the proposed x and keeps
    its y and z, and the last safe position follows. *)
Theorem x_slide_committed (window : GLFWwindow) (deltaTime : float)
    (g : Globals) :
  let g1 := afterRotation gBuildings window g in
  let proposedPos := proposePos window deltaTime g1 in
  wouldCollideAt gBuildings proposedPos (rotation g1) = true ->
  wouldCollideAt gBuildings (slideX g1 proposedPos) (rotation g1) = false ->
  wouldCollideAt gBuildings (slideZ g1 proposedPos) (rotation g1) = true ->
  model_trans_loc (processInput gBuildings window deltaTime g)
  = glm.Vec3 (glm.x proposedPos) (glm.y (model_trans_loc g))
             (glm.z (model_trans_loc g))
  /\ moment_before_collision (processInput gBuildings window deltaTime g)
     = model_trans_loc (processInput gBuildings window deltaTime g).
Proof.
  intros g1 proposedPos Hfull HX HZ.
  destruct (afterRotation_frame gBuildings window g) as [Hl _]. fold g1 in Hl.
  unfold processInput, translationStep, slide. fold g1. fold proposedPos.
  rewrite Hfull, HX, HZ. cbn [negb andb model_trans_loc moment_before_collision].
  unfold slideX. cbn [glm.x]. rewrite Hl. split; reflexivity.
Qed.

(** X12. The Z slide, symmetrically: full move and X-only candidate blocked,
    Z-only candidate free; the position takes the proposed z and keeps its x
    and y. *)
Theorem z_slide_committed (window : GLFWwindow) (deltaTime : float)
    (g : Globals) :
  let g1 := afterRotation gBuildings window g in
  let proposedPos := proposePos window deltaTime g1 in
  wouldCollideAt gBuildings proposedPos (rotation g1) = true ->
  wouldCollideAt gBuildings (slideX g1 proposedPos) (rotation g1) = true ->
  wouldCollideAt gBuildings (slideZ g1 proposedPos) (rotation g1) = false ->
  model_trans_loc (processInput gBuildings window deltaTime g)
  = glm.Vec3 (glm.x (model_trans_loc g)) (glm.y (model_trans_loc g))
             (glm.z proposedPos)
  /\ moment_before_collision (processInput gBuildings window deltaTime g)
     = model_trans_loc (processInput gBuildings window deltaTime g).
Proof.
  intros g1 proposedPos Hfull HX HZ.
  destruct (afterRotation_frame gBuildings window g) as [Hl _]. fold g1 in Hl.
  unfold processInput, translationStep, slide. fold g1. fold proposedPos.
  rewrite Hfull, HX, HZ. cbn [negb andb model_trans_loc moment_before_collision].
  unfold slideZ. cbn [glm.z]. rewrite Hl. split; reflexivity.
Qed.

(** Both translation keys together cancel exactly: the intent is
    [(0 + 1) - 1], the positive zero, as with neither key. *)
Lemma forwardIntent_cancels (window : GLFWwindow) :
  pressed window GLFW_KEY_W = pressed window GLFW_KEY_S ->
  forwardIntent window = F32.zero.
Proof.
  unfold forwardIntent. intros Heq. rewrite Heq.
  destruct (pressed window GLFW_KEY_S); reflexivity.
Qed.

(** X13. With the forward and reverse keys both up or both down, a call in any
    state of the frame loop leaves the position and the last safe position
    where they were, whatever the rotation keys, the boost key and the
    elapsed time: turning on the spot never moves the car. *)
Theorem no_translation_without_intent (start g : Globals)
    (window : GLFWwindow) (deltaTime : float) :
  synced start -> reachable gBuildings start g ->
  pressed window GLFW_KEY_W = pressed window GLFW_KEY_S ->
  model_trans_loc (processInput gBuildings window deltaTime g)
  = model_trans_loc g
  /\ moment_before_collision (processInput gBuildings window deltaTime g)
     = moment_before_collision g.
Proof.
  intros Hstart Hreach Hkeys.
  pose proof (reachable_synced Hstart Hreach) as Hsync. unfold synced in Hsync.
  destruct (afterRotation_frame gBuildings window g) as [Hl Hm].
  set (g1 := afterRotation gBuildings window g) in *.
  assert (Hp : proposePos window deltaTime g1 = model_trans_loc g1).
  { unfold proposePos. rewrite (forwardIntent_cancels window Hkeys).
    reflexivity. }
  unfold processInput, translationStep, slide. fold g1. rewrite Hp.
  destruct (slide_candidates_idle g1) as [HX HZ]. rewrite HX, HZ.
  destruct (wouldCollideAt gBuildings (model_trans_loc g1) (rotation g1));
    cbn [negb andb model_trans_loc moment_before_collision];
    rewrite ?Hl, ?Hm; rewrite <- ?Hsync; split; reflexivity.
Qed.

(** *** The car never enters a building *)

Lemma rotationStep_clear (window : GLFWwindow) (g : Globals) :
  clear gBuildings g -> clear gBuildings (rotationStep gBuildings window g).
Proof.
  unfold clear, synced, rotationStep. intros [Hs Hfree].
  destruct (rotated window); [| auto].
  destruct (wouldCollideAt gBuildings (model_trans_loc g)
              (proposeYaw window (rotation g))) eqn:Hc; cbn [negb]; auto.
Qed.

Lemma translationStep_clear (window : GLFWwindow) (deltaTime : float)
    (g : Globals) :
  clear gBuildings g ->
  clear gBuildings (translationStep gBuildings window deltaTime g).
Proof.
  unfold clear, synced. intros [Hs Hfree]. split;
    [apply translationStep_synced |].
  unfold translationStep.
  destruct (wouldCollideAt gBuildings (proposePos window deltaTime g)
              (rotation g)) eqn:Hfull; cbn [negb model_trans_loc rotation];
    [| exact Hfull].
  unfold slide.
  destruct (wouldCollideAt gBuildings
              (slideX g (proposePos window deltaTime g)) (rotation g)) eqn:HX,
    (wouldCollideAt gBuildings
       (slideZ g (proposePos window deltaTime g)) (rotation g)) eqn:HZ;
    cbn [negb andb model_trans_loc rotation];
    try (rewrite <- Hs; exact Hfree).
  - exact HZ.
  - exact HX.
Qed.

Lemma processInput_clear (window : GLFWwindow) (deltaTime : float)
    (g : Globals) :
  clear gBuildings g -> clear gBuildings (processInput gBuildings window deltaTime g).
Proof.
  intros Hclear. unfold processInput, afterRotation.
  apply translationStep_clear, rotationStep_clear.
  destruct Hclear as [Hs Hfree]. unfold clear, synced.
  destruct (escapeStep_frame window g) as [Hl [Hr Hm]].
  rewrite Hl, Hr, Hm. auto.
Qed.

(** X14. If the car starts clear of every building, with the last safe position
    where it stands, then in every state of the frame loop the car, at its
    position and yaw, overlaps no building, and neither does the last safe
    position. *)
Theorem never_inside_a_building (start g : Globals) :
  clear gBuildings start -> reachable gBuildings start g ->
  wouldCollideAt gBuildings (model_trans_loc g) (rotation g) = false
  /\ wouldCollideAt gBuildings (moment_before_collision g) (rotation g)
     = false.
Proof.
  intros Hstart Hreach.
  assert (Hclear : clear gBuildings g).
  { induction Hreach as [| g window deltaTime _ IH];
      [exact Hstart | apply processInput_clear; exact IH]. }
  destruct Hclear as [Hs Hfree]. unfold synced in Hs.
  rewrite <- Hs. auto.
Qed.

(** X15. In a world without buildings nothing is ever blocked: every proposed
    position and every proposed yaw is committed. *)
Theorem empty_world_commits (window : GLFWwindow) (deltaTime : float)
    (g : Globals) :
  model_trans_loc (processInput [] window deltaTime g)
  = proposePos window deltaTime (afterRotation [] window g)
  /\ rotation (processInput [] window deltaTime g)
     = if rotated window then proposeYaw window (rotation g) else rotation g.
Proof.
  split.
  - unfold processInput, translationStep. reflexivity.
  - unfold processInput, afterRotation.
    destruct (escapeStep_frame window g) as [_ [Hr _]].
    unfold translationStep, rotationStep. cbn [wouldCollideAt overlapsAny negb rotation].
    rewrite Hr. destruct (rotated window); [reflexivity | exact Hr].
Qed.

(** X19. The elapsed time matters only to a translation: with the forward
    and reverse keys both up or both down, two calls in the same state with
    the same keys and different elapsed times end in the same state. *)
Theorem elapsed_time_irrelevant_without_intent (window : GLFWwindow)
    (deltaTime deltaTime' : float) (g : Globals) :
  pressed window GLFW_KEY_W = pressed window GLFW_KEY_S ->
  processInput gBuildings window deltaTime g
  = processInput gBuildings window deltaTime' g.
Proof.
  intros Hkeys. unfold processInput, translationStep, proposePos.
  rewrite (forwardIntent_cancels window Hkeys). reflexivity.
Qed.

(** X20. The boost key matters only to driving forward: two windows that
    agree on every key but the boost key, with the forward key up or the
    reverse key down, take the same state to the same state. *)
Theorem boost_irrelevant_unless_forward (window window' : GLFWwindow)
    (deltaTime : float) (g : Globals) :
  (forall k, k <> GLFW_KEY_LEFT_SHIFT -> window k = window' k) ->
  pressed window GLFW_KEY_W = false \/ pressed window GLFW_KEY_S = true ->
  processInput gBuildings window deltaTime g
  = processInput gBuildings window' deltaTime g.
Proof.
  intros Hagree Hkeys.
  assert (HA : pressed window' GLFW_KEY_A = pressed window GLFW_KEY_A)
    by (symmetry; apply Hagree; discriminate).
  assert (HD : pressed window' GLFW_KEY_D = pressed window GLFW_KEY_D)
    by (symmetry; apply Hagree; discriminate).
  assert (HW : pressed window' GLFW_KEY_W = pressed window GLFW_KEY_W)
    by (symmetry; apply Hagree; discriminate).
  assert (HS : pressed window' GLFW_KEY_S = pressed window GLFW_KEY_S)
    by (symmetry; apply Hagree; discriminate).
  assert (HE : pressed window' GLFW_KEY_ESCAPE = pressed window GLFW_KEY_ESCAPE)
    by (symmetry; apply Hagree; discriminate).
  assert (Hafter : afterRotation gBuildings window' g
                   = afterRotation gBuildings window g).
  { unfold afterRotation, rotationStep, escapeStep, rotated, proposeYaw.
    rewrite HA, HD, HE. reflexivity. }
  assert (Hprop : forall g1, proposePos window' deltaTime g1
                             = proposePos window deltaTime g1).
  { intros g1. unfold proposePos, forwardIntent, effectiveSpeed.
    rewrite HW, HS.
    destruct Hkeys as [Hup | Hdown].
    - rewrite Hup. destruct (pressed window GLFW_KEY_S); cbn [negb andb];
        rewrite ?andb_false_r; reflexivity.
    - rewrite Hdown. cbn [negb]. rewrite !andb_false_r. reflexivity. }
  unfold processInput, translationStep. rewrite Hafter, Hprop. reflexivity.
Qed.

End MoreResolver.

(** ** The mouse callback *)

Section Mouse.

(** X16. The first cursor event does not turn the camera: while [firstMouse] is
    set, an event at a position that converts to binary32 numbers other than
    NaN and the infinities hands the camera two zero offsets. *)
Theorem first_event_no_jump (ms : MouseState) (xposIn yposIn : spec_float) :
  firstMouse ms = true ->
  F32.is_finite (F32.of_double xposIn) = true ->
  F32.is_finite (F32.of_double yposIn) = true ->
  snd (mouse_callback ms xposIn yposIn) = (F32.zero, F32.zero).
Proof.
  intros Hfirst Hx Hy. unfold mouse_callback. rewrite Hfirst.
  cbn [snd lastX lastY].
  rewrite (F32Facts.sub_diag _ Hx), (F32Facts.sub_diag _ Hy). reflexivity.
Qed.

(** X17. A cursor that has not moved does not turn the camera: an event at the
    position of the event before it hands the camera two zero offsets. *)
Theorem same_position_no_turn (ms : MouseState) (xposIn yposIn : spec_float) :
  F32.is_finite (F32.of_double xposIn) = true ->
  F32.is_finite (F32.of_double yposIn) = true ->
  snd (mouse_callback (fst (mouse_callback ms xposIn yposIn)) xposIn yposIn)
  = (F32.zero, F32.zero).
Proof.
  intros Hx Hy. unfold mouse_callback.
  destruct ms as [lx ly [|]]; cbn [fst snd lastX lastY firstMouse];
    rewrite (F32Facts.sub_diag _ Hx), (F32Facts.sub_diag _ Hy); reflexivity.
Qed.

(** X18. After any sequence of cursor events the three globals hold the position
    of the last event, converted to binary32, and [firstMouse] is cleared;
    nothing of the earlier events or of the state before them remains. *)
Theorem mouse_events_last (ms : MouseState)
    (events : list (spec_float * spec_float)) (xposIn yposIn : spec_float) :
  mouse_events ms (events ++ [(xposIn, yposIn)])
  = {| lastX := F32.of_double xposIn;
       lastY := F32.of_double yposIn;
       firstMouse := false |}.
Proof.
  unfold mouse_events. rewrite fold_left_app. cbn [fold_left fst snd].
  unfold mouse_callback. cbn [fst].
  destruct (firstMouse (fold_left _ events ms)) eqn:Hf; cbn [firstMouse].
  - reflexivity.
  - rewrite Hf. reflexivity.
Qed.

End Mouse.

(** ** The properties on concrete scenes *)

Import Scenes.

(** From here on [sinf] and [cosf] are the series of [Series]. *)
#[local] Existing Instance Series.libm.

(** The series agree with the math library where its values are known:
    at zero exactly, and at pi/4 and 0.01 to the last bit
    (0x3F3504F3 twice, 0x3C23D657 and 0x3F7FFCB9). *)
Example series_values :
  sinf F32.zero = F32.zero /\ cosf F32.zero = F32.one
  /\ sinf quarterPi = S754_finite false 11863283 (-24)
  /\ cosf quarterPi = S754_finite false 11863283 (-24)
  /\ sinf ROTATION_SPEED = S754_finite false 10737239 (-30)
  /\ cosf ROTATION_SPEED = S754_finite false 16776377 (-24).
Proof. vm_compute. repeat split; reflexivity. Qed.

(** The invariant after one frame of driving forward in the scene of
    [main]. *)
Lemma position_is_last_safe_witness :
  synced (processInput mainBuildings (holding [GLFW_KEY_W]) shortFrame
            initialGlobals)
  /\ forall window deltaTime,
       model_trans_loc
         (processInput mainBuildings window deltaTime
            (processInput mainBuildings (holding [GLFW_KEY_W]) shortFrame
               initialGlobals))
       = moment_before_collision
           (processInput mainBuildings window deltaTime
              (processInput mainBuildings (holding [GLFW_KEY_W]) shortFrame
                 initialGlobals)).
Proof.
  apply (@position_is_last_safe Series.libm mainBuildings initialGlobals).
  - reflexivity.
  - apply reach_frame. apply reach_start.
Defined.

(** No intent in the scene of [main]: one frame after the start, with only
    the escape key down, for a whole second. *)
Lemma no_intent_keeps_pose_witness :
  model_trans_loc
    (processInput mainBuildings (holding [GLFW_KEY_ESCAPE]) longFrame
       (processInput mainBuildings (holding [GLFW_KEY_W]) shortFrame
          initialGlobals))
  = model_trans_loc
      (processInput mainBuildings (holding [GLFW_KEY_W]) shortFrame
         initialGlobals)
  /\ rotation
       (processInput mainBuildings (holding [GLFW_KEY_ESCAPE]) longFrame
          (processInput mainBuildings (holding [GLFW_KEY_W]) shortFrame
             initialGlobals))
     = rotation
         (processInput mainBuildings (holding [GLFW_KEY_W]) shortFrame
            initialGlobals).
Proof.
  apply (@no_intent_keeps_pose Series.libm mainBuildings initialGlobals).
  - reflexivity.
  - apply reach_frame. apply reach_start.
  - repeat split.
Defined.

(** The height on a boosted forward frame from the start of [main]. *)
Lemma height_unchanged_witness :
  glm.y (model_trans_loc
           (processInput mainBuildings
              (holding [GLFW_KEY_W; GLFW_KEY_LEFT_SHIFT]) shortFrame
              initialGlobals))
  = glm.y (model_trans_loc initialGlobals).
Proof.
  apply (@height_unchanged Series.libm mainBuildings initialGlobals).
  - reflexivity.
  - apply reach_start.
Defined.

(** Beside the first building of [main], turning left by 0.01 would push the
    car box into the building: the rotation is dropped. *)
Lemma blocked_rotation_rejected_witness :
  rotationStep mainBuildings (holding [GLFW_KEY_A]) besideBuilding
  = besideBuilding
  /\ rotation (processInput mainBuildings (holding [GLFW_KEY_A]) shortFrame
                 besideBuilding)
     = rotation besideBuilding.
Proof.
  apply (@blocked_rotation_rejected Series.libm mainBuildings).
  - reflexivity.
  - vm_compute. reflexivity.
Defined.

(** Between the two buildings of [wedge]: from the start, turning left and
    driving forward for one second proposes (0.035, 0, 3.4998); the building
    ahead blocks that move and the Z slide, the building on the right blocks
    the X slide. *)
Lemma full_block_restores_witness :
  model_trans_loc
    (processInput wedge (holding [GLFW_KEY_A; GLFW_KEY_W]) longFrame
       initialGlobals)
  = moment_before_collision
      (processInput wedge (holding [GLFW_KEY_A; GLFW_KEY_W]) longFrame
         initialGlobals)
  /\ model_trans_loc
       (processInput wedge (holding [GLFW_KEY_A; GLFW_KEY_W]) longFrame
          initialGlobals)
     = model_trans_loc initialGlobals
  /\ moment_before_collision
       (processInput wedge (holding [GLFW_KEY_A; GLFW_KEY_W]) longFrame
          initialGlobals)
     = moment_before_collision initialGlobals.
Proof.
  apply (@full_block_restores Series.libm wedge initialGlobals).
  - reflexivity.
  - apply reach_start.
  - vm_compute. reflexivity.
  - vm_compute. reflexivity.
  - vm_compute. reflexivity.
Defined.

(** At the corner of the first building of [main], reversing diagonally for
    one frame is blocked although either axis alone is free, and the car
    stays where it is. *)
Lemma both_free_commits_no_slide_witness :
  model_trans_loc
    (processInput mainBuildings (holding [GLFW_KEY_S]) shortFrame atCorner)
  = moment_before_collision atCorner
  /\ moment_before_collision
       (processInput mainBuildings (holding [GLFW_KEY_S]) shortFrame atCorner)
     = moment_before_collision atCorner
  /\ (synced atCorner ->
      model_trans_loc
        (processInput mainBuildings (holding [GLFW_KEY_S]) shortFrame atCorner)
      = model_trans_loc atCorner).
Proof.
  apply (@both_free_commits_no_slide Series.libm mainBuildings).
  - vm_compute. reflexivity.
  - vm_compute. reflexivity.
  - vm_compute. reflexivity.
Defined.

(** The X-slide priority fails at that corner: the full move is blocked,
    both slide candidates are free, and the position does not take the
    proposed x. *)
Lemma prefersXSlide_counterexample :
  ~ prefersXSlide mainBuildings (holding [GLFW_KEY_S]) shortFrame atCorner.
Proof.
  unfold prefersXSlide. intros Hclaim.
  assert (Hx : glm.x (model_trans_loc
                        (processInput mainBuildings (holding [GLFW_KEY_S])
                           shortFrame atCorner))
               <> glm.x (proposePos (holding [GLFW_KEY_S]) shortFrame
                           (afterRotation mainBuildings (holding [GLFW_KEY_S])
                              atCorner)))
    by (vm_compute; discriminate).
  apply Hx. apply Hclaim; vm_compute; reflexivity.
Qed.

(** *** The ordinary branches on the same scene *)

(** The boosted speed is 10.5, the plain one 3.5. *)
Example boosted_speed_value :
  effectiveSpeed (holding [GLFW_KEY_W; GLFW_KEY_LEFT_SHIFT]) = F32.lit 105 10
  /\ effectiveSpeed (holding [GLFW_KEY_S; GLFW_KEY_LEFT_SHIFT]) = F32.lit 35 10.
Proof. vm_compute. split; reflexivity. Qed.

(** From the start of [main] nothing is in the way: driving forward for one
    frame commits the proposed position, 3.5/64 further along z. *)
Example free_move_commits :
  model_trans_loc
    (processInput mainBuildings (holding [GLFW_KEY_W]) shortFrame
       initialGlobals)
  = glm.Vec3 F32.zero F32.zero (F32.lit 35 640).
Proof. vm_compute. reflexivity. Qed.

(** Facing the side of the first building of [main] that looks along z, the
    same diagonal reverse is blocked on z only: the X slide is committed, the
    position takes the proposed x and keeps its z. *)
Example x_slide_commits :
  wouldCollideAt mainBuildings
    (proposePos (holding [GLFW_KEY_S]) shortFrame facingSide)
    (rotation facingSide) = true
  /\ glm.x (model_trans_loc
              (processInput mainBuildings (holding [GLFW_KEY_S]) shortFrame
                 facingSide))
     = glm.x (proposePos (holding [GLFW_KEY_S]) shortFrame facingSide)
  /\ glm.x (model_trans_loc
              (processInput mainBuildings (holding [GLFW_KEY_S]) shortFrame
                 facingSide))
     <> glm.x (model_trans_loc facingSide)
  /\ glm.z (model_trans_loc
              (processInput mainBuildings (holding [GLFW_KEY_S]) shortFrame
                 facingSide))
     = glm.z (model_trans_loc facingSide).
Proof. vm_compute. repeat split; try reflexivity. discriminate. Qed.

(** *** The further properties on the same scenes *)

(** The unit cube lies within the cube from -1 to 2. *)
Lemma aabbOverlap_inside_witness :
  aabbOverlap (cube F32.zero F32.one F32.zero)
              (cube (F32.opp F32.one) F32.two F32.zero) = true.
Proof.
  apply aabbOverlap_inside.
  - intros []; reflexivity.
  - intros []; split; reflexivity.
Defined.

(** The local box of the car overlaps itself. *)
Lemma aabbOverlap_self_witness : aabbOverlap kCarLocalAABB kCarLocalAABB = true.
Proof.
  apply aabbOverlap_self. intros []; reflexivity.
Defined.

(** A yaw of 0.01 is in range. *)
Lemma wrapPi_in_range_witness : wrapPi ROTATION_SPEED = ROTATION_SPEED.
Proof.
  apply wrapPi_in_range; reflexivity.
Defined.

(** Beside the first building of [main] with a yaw of 0.01 the car collides
    with that building alone, hence in the whole scene. *)
Lemma wouldCollideAt_more_buildings_witness :
  wouldCollideAt mainBuildings (model_trans_loc besideBuilding)
    ROTATION_SPEED = true.
Proof.
  apply (@wouldCollideAt_more_buildings Series.libm
           (firstn 1 mainBuildings) mainBuildings).
  - intros b [Hb | []]. left. exact Hb.
  - vm_compute. reflexivity.
Defined.

(** The scene of [main] pushed in the opposite order. *)
Lemma wouldCollideAt_permutation_witness :
  wouldCollideAt mainBuildings (model_trans_loc besideBuilding)
    ROTATION_SPEED
  = wouldCollideAt (rev mainBuildings) (model_trans_loc besideBuilding)
      ROTATION_SPEED.
Proof.
  apply wouldCollideAt_permutation. apply Permutation_rev.
Defined.

(** Driving forward from the start of [main]. *)
Lemma full_move_commits_witness :
  model_trans_loc
    (processInput mainBuildings (holding [GLFW_KEY_W]) shortFrame
       initialGlobals)
  = proposePos (holding [GLFW_KEY_W]) shortFrame
      (afterRotation mainBuildings (holding [GLFW_KEY_W]) initialGlobals)
  /\ moment_before_collision
       (processInput mainBuildings (holding [GLFW_KEY_W]) shortFrame
          initialGlobals)
     = proposePos (holding [GLFW_KEY_W]) shortFrame
         (afterRotation mainBuildings (holding [GLFW_KEY_W]) initialGlobals).
Proof.
  apply (@full_move_commits Series.libm mainBuildings).
  vm_compute. reflexivity.
Defined.

(** Reversing diagonally towards the side of the first building of [main]
    that looks along z. *)
Lemma x_slide_committed_witness :
  model_trans_loc
    (processInput mainBuildings (holding [GLFW_KEY_S]) shortFrame facingSide)
  = glm.Vec3
      (glm.x (proposePos (holding [GLFW_KEY_S]) shortFrame
                (afterRotation mainBuildings (holding [GLFW_KEY_S])
                   facingSide)))
      (glm.y (model_trans_loc facingSide))
      (glm.z (model_trans_loc facingSide))
  /\ moment_before_collision
       (processInput mainBuildings (holding [GLFW_KEY_S]) shortFrame
          facingSide)
     = model_trans_loc
         (processInput mainBuildings (holding [GLFW_KEY_S]) shortFrame
            facingSide).
Proof.
  apply (@x_slide_committed Series.libm mainBuildings).
  - vm_compute. reflexivity.
  - vm_compute. reflexivity.
  - vm_compute. reflexivity.
Defined.

(** Reversing diagonally towards the side of the same building that looks
    along x. *)
Lemma z_slide_committed_witness :
  model_trans_loc
    (processInput mainBuildings (holding [GLFW_KEY_S]) shortFrame alongside)
  = glm.Vec3
      (glm.x (model_trans_loc alongside))
      (glm.y (model_trans_loc alongside))
      (glm.z (proposePos (holding [GLFW_KEY_S]) shortFrame
                (afterRotation mainBuildings (holding [GLFW_KEY_S])
                   alongside)))
  /\ moment_before_collision
       (processInput mainBuildings (holding [GLFW_KEY_S]) shortFrame
          alongside)
     = model_trans_loc
         (processInput mainBuildings (holding [GLFW_KEY_S]) shortFrame
            alongside).
Proof.
  apply (@z_slide_committed Series.libm mainBuildings).
  - vm_compute. reflexivity.
  - vm_compute. reflexivity.
  - vm_compute. reflexivity.
Defined.

(** Forward, reverse, boost and a rotation key all down, one frame after the
    start of [main]. *)
Lemma no_translation_without_intent_witness :
  model_trans_loc
    (processInput mainBuildings
       (holding [GLFW_KEY_W; GLFW_KEY_S; GLFW_KEY_LEFT_SHIFT; GLFW_KEY_A])
       longFrame
       (processInput mainBuildings (holding [GLFW_KEY_W]) shortFrame
          initialGlobals))
  = model_trans_loc
      (processInput mainBuildings (holding [GLFW_KEY_W]) shortFrame
         initialGlobals)
  /\ moment_before_collision
       (processInput mainBuildings
          (holding [GLFW_KEY_W; GLFW_KEY_S; GLFW_KEY_LEFT_SHIFT; GLFW_KEY_A])
          longFrame
          (processInput mainBuildings (holding [GLFW_KEY_W]) shortFrame
             initialGlobals))
     = moment_before_collision
         (processInput mainBuildings (holding [GLFW_KEY_W]) shortFrame
            initialGlobals).
Proof.
  apply (@no_translation_without_intent Series.libm mainBuildings
           initialGlobals).
  - reflexivity.
  - apply reach_frame. apply reach_start.
  - reflexivity.
Defined.

(** The car of [main] starts clear of the three buildings, so it is clear of
    them after a boosted second of driving forward while turning left. *)
Lemma never_inside_a_building_witness :
  wouldCollideAt mainBuildings
    (model_trans_loc
       (processInput mainBuildings
          (holding [GLFW_KEY_W; GLFW_KEY_LEFT_SHIFT; GLFW_KEY_A]) longFrame
          initialGlobals))
    (rotation
       (processInput mainBuildings
          (holding [GLFW_KEY_W; GLFW_KEY_LEFT_SHIFT; GLFW_KEY_A]) longFrame
          initialGlobals)) = false
  /\ wouldCollideAt mainBuildings
       (moment_before_collision
          (processInput mainBuildings
             (holding [GLFW_KEY_W; GLFW_KEY_LEFT_SHIFT; GLFW_KEY_A]) longFrame
             initialGlobals))
       (rotation
          (processInput mainBuildings
             (holding [GLFW_KEY_W; GLFW_KEY_LEFT_SHIFT; GLFW_KEY_A]) longFrame
             initialGlobals)) = false.
Proof.
  apply (@never_inside_a_building Series.libm mainBuildings initialGlobals).
  - split; [reflexivity | vm_compute; reflexivity].
  - apply reach_frame. apply reach_start.
Defined.

(** The first event of a session, at the binary64 position (400.5, 300.25). *)
Lemma first_event_no_jump_witness :
  snd (mouse_callback initialMouse (S754_finite false 801 (-1))
         (S754_finite false 1201 (-2)))
  = (F32.zero, F32.zero).
Proof.
  apply first_event_no_jump; reflexivity.
Defined.

(** Two events in a row at (400.5, 300.25), after the cursor was elsewhere. *)
Lemma same_position_no_turn_witness :
  snd (mouse_callback
         (fst (mouse_callback
                 {| lastX := F32.lit 10 1; lastY := F32.lit 20 1;
                    firstMouse := false |}
                 (S754_finite false 801 (-1)) (S754_finite false 1201 (-2))))
         (S754_finite false 801 (-1)) (S754_finite false 1201 (-2)))
  = (F32.zero, F32.zero).
Proof.
  apply same_position_no_turn; reflexivity.
Defined.

(** A moving cursor does turn the camera, and the y offset is reversed: from
    the middle of the window to (410, 290) the offsets are (10, 10). *)
Example mouse_offsets_value :
  snd (mouse_callback
         {| lastX := F32.lit 400 1; lastY := F32.lit 300 1;
            firstMouse := false |}
         (S754_finite false 410 0) (S754_finite false 290 0))
  = (F32.lit 10 1, F32.lit 10 1).
Proof. vm_compute. reflexivity. Qed.

(** Turning left on the spot for a sixty-fourth of a second or for a whole
    one. *)
Lemma elapsed_time_irrelevant_without_intent_witness :
  processInput mainBuildings (holding [GLFW_KEY_A]) shortFrame besideBuilding
  = processInput mainBuildings (holding [GLFW_KEY_A]) longFrame besideBuilding.
Proof.
  apply elapsed_time_irrelevant_without_intent. reflexivity.
Defined.

(** Reversing at the corner with and without the boost key. *)
Lemma boost_irrelevant_unless_forward_witness :
  processInput mainBuildings (holding [GLFW_KEY_S; GLFW_KEY_LEFT_SHIFT])
    shortFrame atCorner
  = processInput mainBuildings (holding [GLFW_KEY_S]) shortFrame atCorner.
Proof.
  apply boost_irrelevant_unless_forward.
  - intros [] Hk; try reflexivity. contradiction Hk. reflexivity.
  - left. reflexivity.
Defined.

